(** * clawio/codes: error codes, error rendering and URL sanitising

    A shallow embedding of [codes.go] and of the parts of Go's [fmt] and
    [net/url] packages that it calls, followed by the properties of the
    package that the specification states.

    Conventions.
    - A Go [string] is a sequence of bytes: [string] (a list of 8-bit
      [ascii]).
    - [Code] is a [uint32]: an [N]; no arithmetic is done on it.
    - [map[string][]string] ([url.Values]) is a [gmap string (list string)].
    - A [*url.URL] is [option loc]: [None] is [nil], [Some p] points into a
      heap of URLs.  The sanitiser assigns through that pointer, so the
      heap is threaded explicitly.  The other pointers ([*http.Response],
      [*http.Request], [*Err]) are only read, so they are options of
      values.
    - The library code follows net/url and fmt as of Go 1.21. *)

From Stdlib Require Import String Ascii ZArith NArith List Bool Lia.
From Stdlib Require Import DecimalString HexadecimalString DecimalPos DecimalN.
From stdpp Require Import gmap strings list fin_maps sorting.
From Equations Require Import Equations.

(** ** Bytes and the [strings] package *)

Module strings.

(** [lo <= c && c <= hi] on bytes. *)
Definition between (lo c hi : ascii) : bool :=
  Ascii.leb lo c && Ascii.leb c hi.

(** [case c0, c1, ...:] on a byte: is [c] one of the bytes of [set]. *)
Fixpoint byte_in (c : ascii) (set : string) : bool :=
  match set with
  | EmptyString => false
  | String x rest => Ascii.eqb c x || byte_in c rest
  end.

(** [strings.Contains(s, sep)] for a one-byte [sep]. *)
Fixpoint Contains (s : string) (sep : ascii) : bool :=
  match s with
  | EmptyString => false
  | String c rest => Ascii.eqb c sep || Contains rest sep
  end.

(** [strings.Cut(s, sep)] for a one-byte [sep]: the text before and
    after the first [sep], and whether [sep] was found; without a [sep]
    it is [(s, "", false)]. *)
Fixpoint Cut (s : string) (sep : ascii) : string * string * bool :=
  match s with
  | EmptyString => (EmptyString, EmptyString, false)
  | String c rest =>
      if Ascii.eqb c sep then (EmptyString, rest, true)
      else
        let '(before, after, found) := Cut rest sep in
        (String c before, after, found)
  end.

End strings.

(** ** The [fmt] verbs used by the package *)

Module fmt.

(** [%v] and [%s] of a string. *)
Definition v_string (s : string) : string := s.

(** [%d] of an unsigned integer. *)
Definition d_uint (n : N) : string :=
  DecimalString.NilZero.string_of_uint (N.to_uint n).

(** [%d] of a signed integer. *)
Definition d_int (z : Z) : string :=
  DecimalString.NilZero.string_of_int (Z.to_int z).

(** [%v] of a func value: [fmtPointer] prints its code pointer [u], as
    [<nil>] when it is 0 and as [0x] and lowercase hexadecimal
    otherwise. *)
Definition v_func (u : N) : string :=
  if N.eqb u 0 then "<nil>"
  else "0x" +:+ HexadecimalString.NilZero.string_of_uint (N.to_hex_uint u).

End fmt.

(** ** The [net/url] package *)

Module url.
Import strings.

Inductive encoding : Set :=
| encodePath
| encodePathSegment
| encodeHost
| encodeZone
| encodeUserPassword
| encodeQueryComponent
| encodeFragment.

Definition encoding_eqb (a b : encoding) : bool :=
  match a, b with
  | encodePath, encodePath
  | encodePathSegment, encodePathSegment
  | encodeHost, encodeHost
  | encodeZone, encodeZone
  | encodeUserPassword, encodeUserPassword
  | encodeQueryComponent, encodeQueryComponent
  | encodeFragment, encodeFragment => true
  | _, _ => false
  end.

Definition upperhex : string := "0123456789ABCDEF".

(** [upperhex[i]]; every use has [i < 16]. *)
Definition upperhex_at (i : N) : ascii :=
  match String.get (N.to_nat i) upperhex with
  | Some c => c
  | None => "0"%char
  end.

Definition ishex (c : ascii) : bool :=
  between "0" c "9" || between "a" c "f" || between "A" c "F".

(** The result is a byte below 16. *)
Definition unhex (c : ascii) : N :=
  if between "0" c "9" then N_of_ascii c - N_of_ascii "0"
  else if between "a" c "f" then N_of_ascii c - N_of_ascii "a" + 10
  else if between "A" c "F" then N_of_ascii c - N_of_ascii "A" + 10
  else 0.

(** The byte [unhex(a)<<4 | unhex(b)]. *)
Definition unhex2 (a b : ascii) : ascii :=
  ascii_of_N (N.lor (N.shiftl (unhex a) 4 mod 256) (unhex b)).

(** The double quote, byte 34. *)
Definition dquote : ascii := ascii_of_nat 34.

Definition shouldEscape (c : ascii) (mode : encoding) : bool :=
  if between "a" c "z" || between "A" c "Z" || between "0" c "9" then false
  else if (encoding_eqb mode encodeHost || encoding_eqb mode encodeZone)
          && (byte_in c "!$&'()*+,;=:[]<>" || Ascii.eqb c dquote)
  then false
  else if byte_in c "-_.~" then false
  else if byte_in c "$&+,/:;=?@" then
    match mode with
    | encodePath => Ascii.eqb c "?"
    | encodePathSegment => byte_in c "/;,?"
    | encodeUserPassword => byte_in c "@/?:"
    | encodeQueryComponent => true
    | encodeFragment => false
    | encodeHost | encodeZone => true
    end
  else if encoding_eqb mode encodeFragment && byte_in c "!()*" then false
  else true.

(** One iteration of the output loop of [escape]. *)
Definition escape_byte (c : ascii) (mode : encoding) : string :=
  if Ascii.eqb c " " && encoding_eqb mode encodeQueryComponent then "+"
  else if shouldEscape c mode then
    String "%" (String (upperhex_at (N.shiftr (N_of_ascii c) 4))
               (String (upperhex_at (N.land (N_of_ascii c) 15)) EmptyString))
  else String c EmptyString.

(** [escape]: the two early returns of the Go function (nothing to
    escape, only spaces to escape) produce what the general loop does. *)
Fixpoint escape (s : string) (mode : encoding) : string :=
  match s with
  | EmptyString => EmptyString
  | String c rest => escape_byte c mode +:+ escape rest mode
  end.

(** [unescape]: [None] is an [EscapeError] or an [InvalidHostError].  The
    Go function validates in a first pass and decodes in a second one;
    here a byte is decoded as soon as it is validated.  The checks of
    [encodeZone] on a percent triple are left out: no caller in this
    development unescapes a zone. *)
Fixpoint unescape (s : string) (mode : encoding) : option string :=
  match s with
  | EmptyString => Some EmptyString
  | String c rest =>
      if Ascii.eqb c "%" then
        match rest with
        | String a (String b rest') =>
            if negb (ishex a) || negb (ishex b) then None
            else if encoding_eqb mode encodeHost && N.ltb (unhex a) 8
                    && negb (Ascii.eqb a "2" && Ascii.eqb b "5")
            then None
            else option_map (String (unhex2 a b)) (unescape rest' mode)
        | _ => None
        end
      else if Ascii.eqb c "+" then
        option_map
          (String (if encoding_eqb mode encodeQueryComponent
                   then " "%char else "+"%char))
          (unescape rest mode)
      else if (encoding_eqb mode encodeHost || encoding_eqb mode encodeZone)
              && N.ltb (N_of_ascii c) 128 && shouldEscape c encodeHost
      then None
      else option_map (String c) (unescape rest mode)
  end.

Definition QueryEscape (s : string) : string := escape s encodeQueryComponent.
Definition QueryUnescape (s : string) : option string :=
  unescape s encodeQueryComponent.

(** *** [Values] *)

Abbreviation Values := (gmap string (list string)).

(** [v[key]]: a missing key reads as the nil slice. *)
Definition index (v : Values) (key : string) : list string :=
  default [] (v !! key).

Definition Get (v : Values) (key : string) : string :=
  match index v key with
  | [] => EmptyString
  | x :: _ => x
  end.

Definition Set_ (v : Values) (key value : string) : Values :=
  <[key := [value]]> v.

(** The body of the loop of [parseQuery] for one [&]-separated piece:
    every [continue] leaves the map as it is. *)
Definition parsePair (m : Values) (key : string) : Values :=
  if Contains key ";" then m
  else if String.eqb key EmptyString then m
  else
    let '(key, value, _) := Cut key "=" in
    match QueryUnescape key with
    | None => m
    | Some key =>
        match QueryUnescape value with
        | None => m
        | Some value => <[key := index m key ++ [value]]> m
        end
    end.

(** [parseQuery(m, query)], the map only: [URL.Query], the one caller
    here, discards the error. *)
Equations? parseQuery (m : Values) (query : string) : Values
  by wf (String.length query) lt :=
  parseQuery m EmptyString := m;
  parseQuery m (String c q) :=
    parseQuery (parsePair m (Cut (String c q) "&").1.1)
               (Cut (String c q) "&").1.2.
Proof.
  clear parseQuery.
  assert (Hlen : forall s, String.length (Cut s "&").1.2 <= String.length s).
  { induction s as [|a s IH]; simpl; [lia|].
    destruct (Ascii.eqb a "&"); simpl; [lia|].
    destruct (Cut s "&") as [[b r] f]; simpl in *; lia. }
  destruct (Ascii.eqb c "&"); simpl; [lia|].
  specialize (Hlen q). destruct (Cut q "&") as [[b r] f]; simpl in *; lia.
Qed.

Definition ParseQuery (query : string) : Values := parseQuery ∅ query.

(** [keys]: the keys of the map, sorted as [slices.Sort] sorts strings
    (bytewise). *)
Definition sorted_keys (v : Values) : list string :=
  merge_sort String.le (map_to_list v).*1.

(** The inner loop of [Encode]: the values of one key are written to
    the buffer. *)
Definition encode_values (keyEscaped : string) (vs : list string)
    (buf : string) : string :=
  fold_left
    (fun buf v =>
       let buf := if Nat.ltb 0 (String.length buf)
                  then buf +:+ "&" else buf in
       buf +:+ keyEscaped +:+ "=" +:+ QueryEscape v)
    vs buf.

Definition Encode (v : Values) : string :=
  fold_left
    (fun buf k => encode_values (QueryEscape k) (index v k) buf)
    (sorted_keys v) EmptyString.

(** *** [URL] *)

Record Userinfo : Set := {
  username : string;
  password : string;
  passwordSet : bool
}.

Record URL : Set := {
  Scheme : string;
  Opaque : string;
  User : option Userinfo;
  Host : string;
  Path : string;
  RawPath : string;
  OmitHost : bool;
  ForceQuery : bool;
  RawQuery : string;
  Fragment : string;
  RawFragment : string
}.

(** The assignment [u.RawQuery = q]. *)
Definition set_RawQuery (q : string) (u : URL) : URL :=
  {| Scheme := Scheme u; Opaque := Opaque u; User := User u;
     Host := Host u; Path := Path u; RawPath := RawPath u;
     OmitHost := OmitHost u; ForceQuery := ForceQuery u;
     RawQuery := q;
     Fragment := Fragment u; RawFragment := RawFragment u |}.

Definition Query (u : URL) : Values := ParseQuery (RawQuery u).

Definition Userinfo_String (u : Userinfo) : string :=
  let s := escape (username u) encodeUserPassword in
  if passwordSet u then s +:+ ":" +:+ escape (password u) encodeUserPassword
  else s.

Fixpoint validEncoded (s : string) (mode : encoding) : bool :=
  match s with
  | EmptyString => true
  | String c rest =>
      if byte_in c "!$&'()*+,;=:@" || byte_in c "[]" || Ascii.eqb c "%"
      then validEncoded rest mode
      else if shouldEscape c mode then false
      else validEncoded rest mode
  end.

Definition nonempty (s : string) : bool := negb (String.eqb s EmptyString).

Definition EscapedPath (u : URL) : string :=
  if nonempty (RawPath u) && validEncoded (RawPath u) encodePath
     && match unescape (RawPath u) encodePath with
        | Some p => String.eqb p (Path u)
        | None => false
        end
  then RawPath u
  else if String.eqb (Path u) "*" then "*"
  else escape (Path u) encodePath.

Definition EscapedFragment (u : URL) : string :=
  if nonempty (RawFragment u) && validEncoded (RawFragment u) encodeFragment
     && match unescape (RawFragment u) encodeFragment with
        | Some f => String.eqb f (Fragment u)
        | None => false
        end
  then RawFragment u
  else escape (Fragment u) encodeFragment.

Definition is_Some_b {A} (o : option A) : bool :=
  match o with Some _ => true | None => false end.

(** The part of [URL.String] written for a URL without [Opaque],
    after the scheme: authority and path. *)
Definition URL_String_hier (u : URL) (buf : string) : string :=
  let buf :=
    if nonempty (Scheme u) || nonempty (Host u) || is_Some_b (User u) then
      if OmitHost u && negb (nonempty (Host u)) && negb (is_Some_b (User u))
      then buf
      else
        let buf :=
          if nonempty (Host u) || nonempty (Path u) || is_Some_b (User u)
          then buf +:+ "//" else buf in
        let buf :=
          match User u with
          | Some ui => buf +:+ Userinfo_String ui +:+ "@"
          | None => buf
          end in
        if nonempty (Host u) then buf +:+ escape (Host u) encodeHost
        else buf
    else buf in
  let path := EscapedPath u in
  let buf :=
    match path with
    | String c _ =>
        if negb (Ascii.eqb c "/") && nonempty (Host u) then buf +:+ "/"
        else buf
    | EmptyString => buf
    end in
  let buf :=
    if Nat.eqb (String.length buf) 0 then
      if Contains (Cut path "/").1.1 ":" then buf +:+ "./" else buf
    else buf in
  buf +:+ path.

(** [URL.String]. *)
Definition URL_String (u : URL) : string :=
  let buf := EmptyString in
  let buf := if nonempty (Scheme u) then buf +:+ Scheme u +:+ ":" else buf in
  let buf :=
    if nonempty (Opaque u) then buf +:+ Opaque u else URL_String_hier u buf in
  let buf :=
    if ForceQuery u || nonempty (RawQuery u)
    then buf +:+ "?" +:+ RawQuery u else buf in
  if nonempty (Fragment u) then buf +:+ "#" +:+ EscapedFragment u else buf.

End url.

(** ** Memory: the URLs that pointers refer to *)

Definition loc : Set := nat.
Abbreviation heap := (gmap loc url.URL).

(** [%v] of a [*url.URL]: the pointer implements [Stringer], so its
    [String] method is called; for the nil pointer the call panics and
    [fmt] prints [<nil>]. *)
Definition v_URL (uri : option loc) (h : heap) : string :=
  match uri ≫= (h !!.) with
  | Some u => url.URL_String u
  | None => "<nil>"
  end.

(** ** The fields of [net/http] that the package reads *)

Module http.

Module Request.
Record t : Set := {
  Method : string;
  URL : option loc
}.
End Request.

Module Response.
Record t : Set := {
  StatusCode : Z;
  Request : option Request.t
}.
End Response.

End http.

(** ** Package [codes] *)

Module codes.

(** [type Code uint32] *)
Definition Code : Set := N.

(** The constants, numbered by [iota]. *)
Definition Success : Code := 0%N.
Definition InvalidToken : Code := 1%N.
Definition Unauthenticated : Code := 2%N.
Definition BadAuthenticationData : Code := 3%N.
Definition BadInputData : Code := 4%N.
Definition Internal : Code := 5%N.

(** [func (c Code) String() string] *)
Definition Code_String (c : Code) : string :=
  if N.eqb c InvalidToken then "Invalid or expired token"
  else if N.eqb c Unauthenticated then "Unauthenticated request"
  else if N.eqb c BadAuthenticationData then "Bad authentication data"
  else if N.eqb c BadInputData then "Bad input data"
  else if N.eqb c Internal then
    "Internal error. Please submit a query to the support team"
  else "FIXME: this should be a helpful message".

(** [type Response struct { *http.Response }] *)
Module Response.
Record t : Set := { Response : option http.Response.t }.
End Response.

Definition NewResponse (r : option http.Response.t) : Response.t :=
  {| Response.Response := r |}.

Module Err.
Record t : Set := {
  Message : string;
  Code : Code
}.

(** [func (e *Err) Error() string], for a receiver that is not nil:
    [fmt.Sprintf("%d: %s", e.Code, e.Code.String())].  The verb [%d]
    prints the number, whatever [String] method the type has. *)
Definition Error (e : t) : string :=
  fmt.d_uint (Code e) +:+ ": " +:+ fmt.v_string (Code_String (Code e)).
End Err.

(** [func NewErr(c Code, msg string) *Err]; the result points to a new
    [Err], given here by its value. *)
Definition NewErr (c : Code) (msg : string) : Err.t :=
  let msg := if String.eqb msg "" then Code_String c else msg in
  {| Err.Message := msg; Err.Code := c |}.

(** [func sanitizeURL(uri *url.URL) *url.URL].  The assignment
    [uri.RawQuery = params.Encode()] writes to the URL that [uri] points
    to.  A pointer that is not nil always refers to a URL; for a
    location that the heap lacks the model does nothing. *)
Definition sanitizeURL (uri : option loc) (h : heap) : option loc * heap :=
  match uri with
  | None => (None, h)
  | Some p =>
      match h !! p with
      | None => (uri, h)
      | Some u =>
          let params := url.Query u in
          if Nat.ltb 0 (String.length (url.Get params "token")) then
            let params := url.Set_ params "token" "REDACTED" in
            (uri, <[p := url.set_RawQuery (url.Encode params) u]> h)
          else (uri, h)
      end
  end.

Module ErrorResponse.
Record t : Set := {
  Response : option http.Response.t;
  Err : option Err.t
}.

(** [func (r *ErrorResponse) Error() string], for a receiver that is
    not nil:

      fmt.Sprintf("%v %v: %d %v",
        r.Response.Request.Method, sanitizeURL(r.Response.Request.URL),
        r.Response.StatusCode, r.Error)

    [None] is the panic of a nil [r.Response] or [r.Response.Request].
    The last operand is the selector [r.Error] without a call: the
    method value of this very method (declared on [*ErrorResponse],
    it shadows the [Error] of the embedded [*Err]), a func value.
    [self] is the code pointer that the runtime gives that func
    value. *)
Definition Error (self : N) (r : t) (h : heap) : option (string * heap) :=
  match Response r with
  | None => None
  | Some res =>
      match http.Response.Request res with
      | None => None
      | Some req =>
          let '(uri, h') := sanitizeURL (http.Request.URL req) h in
          Some (fmt.v_string (http.Request.Method req) +:+ " "
                +:+ v_URL uri h' +:+ ": "
                +:+ fmt.d_int (http.Response.StatusCode res) +:+ " "
                +:+ fmt.v_func self,
                h')
      end
  end.
End ErrorResponse.

Definition NewErrorResponse (res : option http.Response.t)
    (e : option Err.t) : ErrorResponse.t :=
  {| ErrorResponse.Response := res; ErrorResponse.Err := e |}.

End codes.

(** * Vocabulary of the properties *)

Import strings url codes.

(** The bytes that structure a query string. *)
Definition separator (x : ascii) : Prop :=
  x = "&"%char \/ x = ";"%char \/ x = "="%char.

(** The text that [Encode] writes for one key and one of its values. *)
Definition pair_text (kv : string * string) : string :=
  QueryEscape kv.1 +:+ "=" +:+ QueryEscape kv.2.

(** [m[key] = append(m[key], value)] *)
Definition add_pair (m : Values) (kv : string * string) : Values :=
  <[kv.1 := index m kv.1 ++ [kv.2]]> m.

(** The pieces joined by [&]. *)
Fixpoint join_amp (l : list string) : string :=
  match l with
  | [] => ""
  | x :: l' =>
      match l' with
      | [] => x
      | _ :: _ => x +:+ "&" +:+ join_amp l'
      end
  end.

(** The pairs in the order in which [Encode] visits them. *)
Definition pairs_of (v : Values) (keys : list string)
    : list (string * string) :=
  keys ≫= (fun k => pair k <$> index v k).

(** Every key that is present has at least one value. *)
Definition no_empty_slice (v : Values) : Prop :=
  forall k, v !! k <> Some [].

(** One write of a pair to the buffer of [Encode]. *)
Definition write (buf piece : string) : string :=
  (if Nat.ltb 0 (String.length buf) then buf +:+ "&" else buf) +:+ piece.

(** What [sanitizeURL] leaves in the URL it is given. *)
Definition redact (u : URL) : URL :=
  if Nat.ltb 0 (String.length (Get (Query u) "token")) then
    set_RawQuery (Encode (Set_ (Query u) "token" "REDACTED")) u
  else u.

(** The URL that the result of [sanitizeURL] points to. *)
Definition sanitized (uri : option loc) (h : heap) : option URL :=
  let '(r, h') := sanitizeURL uri h in r ≫= (h' !!.).

(** The values of the [token] parameters of a URL. *)
Definition token_values (u : URL) : list string := index (Query u) "token".

Definition tokens_redacted (u : URL) : Prop :=
  forall v, v ∈ token_values u -> v = "REDACTED".

Definition is_digit (c : ascii) : bool := between "0" c "9".

Fixpoint all_digits (s : string) : bool :=
  match s with
  | EmptyString => true
  | String c rest => is_digit c && all_digits rest
  end.

(** The URL that [url.Parse] gives for
    [https://api.example.com/x?<query>]. *)
Definition https_url (query : string) : URL :=
  {| Scheme := "https"; Opaque := ""; User := None;
     Host := "api.example.com"; Path := "/x"; RawPath := "";
     OmitHost := false; ForceQuery := false; RawQuery := query;
     Fragment := ""; RawFragment := "" |}.

(** The [ErrorResponse] of a request to the URL at location 0. *)
Definition response_401 : ErrorResponse.t :=
  NewErrorResponse
    (Some {| http.Response.StatusCode := 401;
             http.Response.Request :=
               Some {| http.Request.Method := "GET";
                       http.Request.URL := Some 0 |} |})
    (Some {| Err.Message := ""; Err.Code := Unauthenticated |}).

(** What the specification says [ErrorResponse.Error] returns. *)
Definition specified_rendering (r : ErrorResponse.t) (h : heap)
    : option string :=
  res ← ErrorResponse.Response r;
  req ← http.Response.Request res;
  e ← ErrorResponse.Err r;
  let '(uri, h') := sanitizeURL (http.Request.URL req) h in
  Some (http.Request.Method req +:+ " " +:+ v_URL uri h' +:+ ": "
        +:+ fmt.d_int (http.Response.StatusCode res) +:+ " "
        +:+ Err.Error e).

(** Two URLs that differ at most in their [token] parameters: the fields
    other than [RawQuery] are the same, and so are the parameters under
    every other key. *)
Definition same_except_token (u1 u2 : URL) : Prop :=
  set_RawQuery "" u1 = set_RawQuery "" u2
  /\ delete "token" (Query u1) = delete "token" (Query u2).

(** The guard of [sanitizeURL]: the first [token] value is not empty. *)
Definition has_token (u : URL) : Prop :=
  0 < String.length (Get (Query u) "token").

(** * Properties *)

(** ** Strings *)

Lemma append_cons (x : ascii) (a b : string) :
  String x a +:+ b = String x (a +:+ b).
Proof. reflexivity. Qed.

Lemma append_nil_l (b : string) : "" +:+ b = b.
Proof. reflexivity. Qed.

Lemma append_assoc (a b c : string) : (a +:+ b) +:+ c = a +:+ (b +:+ c).
Proof.
  induction a as [|x a IH]; [reflexivity|].
  by rewrite !append_cons, IH.
Qed.

Lemma append_nil_r (a : string) : a +:+ "" = a.
Proof.
  induction a as [|x a IH]; [reflexivity|]. by rewrite append_cons, IH.
Qed.

Lemma length_append (a b : string) :
  String.length (a +:+ b) = String.length a + String.length b.
Proof.
  induction a as [|x a IH]; [reflexivity|].
  rewrite append_cons. simpl. by rewrite IH.
Qed.

Lemma Contains_append (a b : string) (c : ascii) :
  Contains (a +:+ b) c = Contains a c || Contains b c.
Proof.
  induction a as [|x a IH]; [reflexivity|].
  rewrite append_cons. simpl. by rewrite IH, orb_assoc.
Qed.

Lemma Cut_found (a b : string) (sep : ascii) :
  Contains a sep = false -> Cut (a +:+ String sep b) sep = (a, b, true).
Proof.
  induction a as [|x a IH]; rewrite ?append_cons, ?append_nil_l; simpl.
  - by rewrite Ascii.eqb_refl.
  - intros [Hx Ha]%orb_false_elim. by rewrite Hx, IH.
Qed.

Lemma Cut_not_found (a : string) (sep : ascii) :
  Contains a sep = false -> Cut a sep = (a, "", false).
Proof.
  induction a as [|x a IH]; simpl; [reflexivity|].
  intros [Hx Ha]%orb_false_elim. by rewrite Hx, IH.
Qed.

(** ** Escaping of query components *)

Lemma escape_byte_separator (c x : ascii) :
  separator x -> Contains (escape_byte c encodeQueryComponent) x = false.
Proof.
  intros [-> | [-> | ->]];
    destruct c as [[] [] [] [] [] [] [] []]; reflexivity.
Qed.

Lemma QueryEscape_separator (s : string) (x : ascii) :
  separator x -> Contains (QueryEscape s) x = false.
Proof.
  intros Hx. unfold QueryEscape.
  induction s as [|c s IH]; simpl; [reflexivity|].
  by rewrite Contains_append, IH, escape_byte_separator.
Qed.

Lemma unescape_escape_byte (c : ascii) (rest : string) :
  unescape (escape_byte c encodeQueryComponent +:+ rest) encodeQueryComponent
  = option_map (String c) (unescape rest encodeQueryComponent).
Proof. destruct c as [[] [] [] [] [] [] [] []]; reflexivity. Qed.

Lemma QueryUnescape_QueryEscape (s : string) :
  QueryUnescape (QueryEscape s) = Some s.
Proof.
  unfold QueryUnescape, QueryEscape.
  induction s as [|c s IH]; simpl; [reflexivity|].
  by rewrite unescape_escape_byte, IH.
Qed.

(** ** Parsing what [Encode] writes *)

Lemma pair_text_separator (kv : string * string) (x : ascii) :
  x = "&"%char \/ x = ";"%char -> Contains (pair_text kv) x = false.
Proof.
  intros Hx. unfold pair_text.
  rewrite !Contains_append, !QueryEscape_separator by (unfold separator; tauto).
  destruct Hx as [-> | ->]; reflexivity.
Qed.

Lemma pair_text_length (kv : string * string) :
  0 < String.length (pair_text kv).
Proof. unfold pair_text. rewrite !length_append. simpl. lia. Qed.

Lemma pair_text_eqb (kv : string * string) :
  String.eqb (pair_text kv) "" = false.
Proof.
  pose proof (pair_text_length kv) as H.
  destruct (pair_text kv); [simpl in H; lia | reflexivity].
Qed.

Lemma parsePair_pair_text (m : Values) (kv : string * string) :
  parsePair m (pair_text kv) = add_pair m kv.
Proof.
  unfold parsePair.
  rewrite pair_text_separator by tauto. rewrite pair_text_eqb.
  unfold pair_text. change ("=" +:+ ?s) with (String "=" s).
  rewrite Cut_found by (apply QueryEscape_separator; unfold separator; tauto).
  by rewrite !QueryUnescape_QueryEscape.
Qed.

Lemma parseQuery_piece (m : Values) (q : string) :
  0 < String.length q ->
  parseQuery m q = parseQuery (parsePair m (Cut q "&").1.1) (Cut q "&").1.2.
Proof.
  destruct q as [|c q]; simpl; [lia|]. intros _. by simp parseQuery.
Qed.

Lemma parseQuery_join (m : Values) (l : list (string * string)) :
  parseQuery m (join_amp (pair_text <$> l)) = foldl add_pair m l.
Proof.
  revert m. induction l as [|kv l IH]; intros m; [by simp parseQuery|].
  destruct l as [|kv' l].
  - simpl. rewrite parseQuery_piece by apply pair_text_length.
    rewrite Cut_not_found by (apply pair_text_separator; tauto).
    simpl. simp parseQuery. apply parsePair_pair_text.
  - change (foldl add_pair m (kv :: kv' :: l))
      with (foldl add_pair (add_pair m kv) (kv' :: l)).
    rewrite <- IH. change (join_amp (pair_text <$> kv :: kv' :: l))
      with (pair_text kv +:+ String "&" (join_amp (pair_text <$> kv' :: l))).
    rewrite parseQuery_piece by (rewrite length_append; pose proof (pair_text_length kv); lia).
    rewrite Cut_found by (apply pair_text_separator; tauto).
    simpl. by rewrite parsePair_pair_text.
Qed.

(** *** [Encode] as a join *)

Lemma join_amp_cons_length (x : string) (l : list string) :
  0 < String.length x -> 0 < String.length (join_amp (x :: l)).
Proof.
  intros Hx. destruct l as [|y l]; simpl; [done|].
  rewrite length_append. lia.
Qed.

Lemma join_pairs_snoc (done : list (string * string)) (kv : string * string) :
  join_amp (pair_text <$> (done ++ [kv]))
  = write (join_amp (pair_text <$> done)) (pair_text kv).
Proof.
  induction done as [|y done IH]; [reflexivity|].
  pose proof (pair_text_length y) as Hy.
  unfold write.
  rewrite (proj2 (Nat.ltb_lt _ _)) by (apply join_amp_cons_length, Hy).
  destruct done as [|z done].
  - simpl. by rewrite !append_assoc.
  - change (join_amp (pair_text <$> (y :: z :: done) ++ [kv]))
      with (pair_text y +:+ "&"
            +:+ join_amp (pair_text <$> (z :: done) ++ [kv])).
    rewrite IH. unfold write.
    rewrite (proj2 (Nat.ltb_lt _ _))
      by (apply join_amp_cons_length, pair_text_length).
    change (join_amp (pair_text <$> y :: z :: done))
      with (pair_text y +:+ "&" +:+ join_amp (pair_text <$> z :: done)).
    by rewrite !append_assoc.
Qed.

Lemma encode_values_join (k : string) (vs : list string)
    (done : list (string * string)) :
  encode_values (QueryEscape k) vs (join_amp (pair_text <$> done))
  = join_amp (pair_text <$> (done ++ (pair k <$> vs))).
Proof.
  revert done. induction vs as [|v vs IH]; intros done.
  - simpl. by rewrite app_nil_r.
  - unfold encode_values in *. simpl fold_left.
    change (pair k <$> v :: vs) with ((k, v) :: (pair k <$> vs)).
    rewrite (cons_middle (k, v)), app_assoc, <- IH.
    by rewrite join_pairs_snoc.
Qed.

Lemma encode_keys_join (v : Values) (keys : list string)
    (done : list (string * string)) :
  fold_left (fun buf k => encode_values (QueryEscape k) (index v k) buf)
    keys (join_amp (pair_text <$> done))
  = join_amp (pair_text <$> (done ++ pairs_of v keys)).
Proof.
  revert done. induction keys as [|k keys IH]; intros done.
  - simpl. by rewrite app_nil_r.
  - simpl fold_left. rewrite encode_values_join, IH.
    unfold pairs_of. by rewrite bind_cons, app_assoc.
Qed.

Lemma Encode_join (v : Values) :
  Encode v = join_amp (pair_text <$> pairs_of v (sorted_keys v)).
Proof. apply (encode_keys_join v (sorted_keys v) []). Qed.

(** *** The map that the pairs build *)

Lemma index_insert (m : Values) (k k' : string) (vs : list string) :
  index (<[k := vs]> m) k' = if decide (k = k') then vs else index m k'.
Proof. unfold index. rewrite lookup_insert. by case_decide. Qed.

Lemma index_foldl (m : Values) (l : list (string * string)) (k : string) :
  index (foldl add_pair m l) k
  = index m k ++ (filter (fun kv => kv.1 = k) l).*2.
Proof.
  revert m. induction l as [|[k' x] l IH]; intros m; simpl.
  - by rewrite app_nil_r.
  - rewrite IH. unfold add_pair at 1. simpl. rewrite index_insert.
    rewrite filter_cons. simpl.
    case_decide; subst; simpl; [by rewrite <- app_assoc | done].
Qed.

Lemma add_pair_no_empty_slice (m : Values) (kv : string * string) :
  no_empty_slice m -> no_empty_slice (add_pair m kv).
Proof.
  intros Hm k. unfold add_pair. rewrite lookup_insert.
  case_decide; [|apply Hm].
  intros [= Happ]. by destruct (index m kv.1).
Qed.

Lemma foldl_no_empty_slice (m : Values) (l : list (string * string)) :
  no_empty_slice m -> no_empty_slice (foldl add_pair m l).
Proof.
  revert m. induction l as [|kv l IH]; intros m Hm; [done|].
  simpl. by apply IH, add_pair_no_empty_slice.
Qed.

Lemma no_empty_slice_ext (m1 m2 : Values) :
  no_empty_slice m1 -> no_empty_slice m2 ->
  (forall k, index m1 k = index m2 k) -> m1 = m2.
Proof.
  intros H1 H2 Hi. apply map_eq. intros k.
  specialize (H1 k). specialize (H2 k). specialize (Hi k).
  unfold index in Hi.
  destruct (m1 !! k) as [[|??]|], (m2 !! k) as [[|??]|];
    simpl in *; congruence.
Qed.

Lemma filter_pairs_of (v : Values) (keys : list string) (k : string) :
  NoDup keys ->
  (filter (fun kv => kv.1 = k) (pairs_of v keys)).*2
  = if decide (k ∈ keys) then index v k else [].
Proof.
  assert (Hsame : forall vs : list string,
    (filter (fun kv : string * string => kv.1 = k) (pair k <$> vs)).*2 = vs).
  { induction vs as [|x vs IH]; [done|].
    rewrite fmap_cons, filter_cons_True by done.
    by rewrite fmap_cons, IH. }
  assert (Hother : forall k' (vs : list string), k' <> k ->
    filter (fun kv : string * string => kv.1 = k) (pair k' <$> vs) = []).
  { intros k' vs Hne. induction vs as [|x vs IH]; [done|].
    by rewrite fmap_cons, filter_cons_False. }
  unfold pairs_of. induction 1 as [|k' keys Hnotin Hnd IH].
  - done.
  - rewrite bind_cons, filter_app, fmap_app, IH.
    destruct (decide (k' = k)) as [->|Hne];
      [rewrite Hsame | rewrite Hother by done];
      destruct (decide (k ∈ keys)) as [Hin|Hin],
               (decide (k ∈ _ :: keys)) as [Hin'|Hin'];
      simpl; rewrite ?app_nil_r; try done; exfalso;
      revert Hin'; rewrite elem_of_cons; intuition congruence.
Qed.

Lemma sorted_keys_NoDup (v : Values) : NoDup (sorted_keys v).
Proof.
  unfold sorted_keys. rewrite merge_sort_Permutation.
  apply NoDup_fst_map_to_list.
Qed.

Lemma elem_of_sorted_keys (v : Values) (k : string) :
  k ∈ sorted_keys v <-> is_Some (v !! k).
Proof.
  unfold sorted_keys. rewrite merge_sort_Permutation.
  rewrite list_elem_of_fmap. split.
  - intros [[k' vs] [-> H%elem_of_map_to_list]]. by exists vs.
  - intros [vs H]. exists (k, vs). by rewrite elem_of_map_to_list.
Qed.

Lemma ParseQuery_no_empty_slice_aux (v : Values) :
  no_empty_slice (foldl add_pair ∅ (pairs_of v (sorted_keys v))).
Proof. apply foldl_no_empty_slice. intros k. by rewrite lookup_empty. Qed.

(** Parsing what [Encode] wrote gives the map back. *)
Lemma ParseQuery_Encode (v : Values) :
  no_empty_slice v -> ParseQuery (Encode v) = v.
Proof.
  intros Hv. unfold ParseQuery. rewrite Encode_join, parseQuery_join.
  apply no_empty_slice_ext; [apply ParseQuery_no_empty_slice_aux | done |].
  intros k. rewrite index_foldl, filter_pairs_of by apply sorted_keys_NoDup.
  unfold index at 1. rewrite lookup_empty. simpl.
  case_decide as Hk; [done|].
  rewrite elem_of_sorted_keys in Hk. unfold index.
  destruct (v !! k); [|done]. by destruct Hk.
Qed.

Lemma parsePair_no_empty_slice (m : Values) (key : string) :
  no_empty_slice m -> no_empty_slice (parsePair m key).
Proof.
  intros Hm. unfold parsePair.
  destruct (Contains key ";"); [done|].
  destruct (String.eqb key ""); [done|].
  destruct (Cut key "=") as [[k x] f].
  destruct (QueryUnescape k) as [k'|]; [|done].
  destruct (QueryUnescape x) as [x'|]; [|done].
  apply (add_pair_no_empty_slice m (k', x') Hm).
Qed.

Lemma parseQuery_no_empty_slice (m : Values) (q : string) :
  no_empty_slice m -> no_empty_slice (parseQuery m q).
Proof.
  funelim (parseQuery m q); [done|].
  intros Hm.
  match goal with IH : _ -> no_empty_slice _ |- _ => apply IH end.
  by apply parsePair_no_empty_slice.
Qed.

Lemma Query_no_empty_slice (u : URL) : no_empty_slice (Query u).
Proof.
  apply parseQuery_no_empty_slice. intros k. by rewrite lookup_empty.
Qed.

Lemma Set_no_empty_slice (v : Values) (key value : string) :
  no_empty_slice v -> no_empty_slice (Set_ v key value).
Proof.
  intros Hv k. unfold Set_. rewrite lookup_insert. case_decide; [done|apply Hv].
Qed.

(** ** The sanitiser *)

Lemma sanitizeURL_redact (h : heap) (p : loc) (u : URL) :
  h !! p = Some u ->
  sanitizeURL (Some p) h = (Some p, <[p := redact u]> h).
Proof.
  intros Hp. unfold sanitizeURL, redact. rewrite Hp.
  destruct (Nat.ltb 0 _); [done|]. by rewrite insert_id.
Qed.

Lemma sanitized_redact (h : heap) (p : loc) (u : URL) :
  h !! p = Some u -> sanitized (Some p) h = Some (redact u).
Proof.
  intros Hp. unfold sanitized. rewrite (sanitizeURL_redact h p u Hp).
  simpl. by rewrite lookup_insert_eq.
Qed.

Lemma set_RawQuery_same (u : URL) : set_RawQuery (RawQuery u) u = u.
Proof. by destruct u. Qed.

Lemma set_RawQuery_twice (q q' : string) (u : URL) :
  set_RawQuery q (set_RawQuery q' u) = set_RawQuery q u.
Proof. reflexivity. Qed.

Lemma Query_set_RawQuery (q : string) (u : URL) :
  Query (set_RawQuery q u) = ParseQuery q.
Proof. reflexivity. Qed.

(** After a redaction the query parses to the map that was encoded. *)
Lemma Query_redact (u : URL) :
  0 < String.length (Get (Query u) "token") ->
  Query (redact u) = Set_ (Query u) "token" "REDACTED".
Proof.
  intros Hlen%Nat.ltb_lt. unfold redact. rewrite Hlen.
  rewrite Query_set_RawQuery.
  apply ParseQuery_Encode, Set_no_empty_slice, Query_no_empty_slice.
Qed.

Lemma redact_unchanged (u : URL) :
  Get (Query u) "token" = "" -> redact u = u.
Proof. intros H. unfold redact. by rewrite H. Qed.

Lemma Get_Set (v : Values) (key value : string) :
  Get (Set_ v key value) key = value.
Proof. unfold Get, Set_, index. by rewrite lookup_insert_eq. Qed.

Lemma Set_Set (v : Values) (key value : string) :
  Set_ (Set_ v key value) key value = Set_ v key value.
Proof. unfold Set_. apply insert_insert_eq. Qed.

Lemma redact_redact (u : URL) : redact (redact u) = redact u.
Proof.
  destruct (Nat.ltb 0 (String.length (Get (Query u) "token"))) eqn:Hlen.
  - pose proof (Query_redact u (proj1 (Nat.ltb_lt _ _) Hlen)) as HQ.
    unfold redact at 1. rewrite HQ, Get_Set, Set_Set. simpl.
    unfold redact. rewrite Hlen. apply set_RawQuery_twice.
  - unfold redact at 2. rewrite Hlen. unfold redact. by rewrite Hlen.
Qed.

(** ** Formatting *)

Lemma string_of_uint_digits (d : Decimal.uint) :
  all_digits (DecimalString.NilEmpty.string_of_uint d) = true.
Proof. induction d; simpl; by rewrite ?IHd. Qed.

(** A decimal numeral is a digit followed by digits. *)
Lemma d_uint_shape (n : N) :
  exists c rest,
    fmt.d_uint n = String c rest /\ is_digit c = true
    /\ all_digits rest = true.
Proof.
  unfold fmt.d_uint, DecimalString.NilZero.string_of_uint.
  pose proof (string_of_uint_digits (N.to_uint n)) as Hd.
  destruct (N.to_uint n) eqn:E;
    [by exists "0"%char, "" | ..];
    simpl in *; do 2 eexists; (split; [reflexivity|]); by split.
Qed.

(** A func value never prints as a decimal numeral and a colon. *)
Lemma v_func_not_numeral (u n : N) (rest : string) :
  fmt.v_func u <> fmt.d_uint n +:+ String ":" rest.
Proof.
  destruct (d_uint_shape n) as (c & ds & -> & Hc & Hds).
  unfold fmt.v_func. rewrite append_cons.
  destruct (N.eqb u 0).
  - intros [= <- _]. discriminate Hc.
  - change ("0x" +:+ ?s) with (String "0" (String "x" s)).
    intros [= <- H]. destruct ds as [|c' ds]; [discriminate H|].
    rewrite append_cons in H. injection H as <- _.
    simpl in Hds. discriminate Hds.
Qed.

(** ** The claims of the specification *)

(** *** Code descriptions *)

Lemma Code_String_defined :
  Code_String InvalidToken = "Invalid or expired token"
  /\ Code_String Unauthenticated = "Unauthenticated request"
  /\ Code_String BadAuthenticationData = "Bad authentication data"
  /\ Code_String BadInputData = "Bad input data"
  /\ Code_String Internal
     = "Internal error. Please submit a query to the support team".
Proof. repeat split. Qed.

Lemma Code_String_fallback (c : Code) :
  (Internal < c)%N ->
  Code_String c = "FIXME: this should be a helpful message".
Proof.
  unfold Code_String, InvalidToken, Unauthenticated, BadAuthenticationData,
    BadInputData, Internal.
  intros Hc.
  repeat match goal with
         | |- context [N.eqb c ?k] =>
             destruct (N.eqb_spec c k) as [->|_]; [lia|]
         end.
  reflexivity.
Qed.

Lemma Code_String_nonempty (c : Code) : Code_String c <> "".
Proof.
  unfold Code_String.
  repeat match goal with
         | |- context [N.eqb c ?k] => destruct (N.eqb c k); [discriminate|]
         end.
  discriminate.
Qed.

(** C3.  [Code.String] has no case for [Success]: its description is the
    fallback text, the one that an undefined code such as 6 gets, and not
    a message of its own. *)
Theorem Code_String_Success_is_fallback :
  Code_String Success = "FIXME: this should be a helpful message"
  /\ Code_String Success = Code_String 6%N.
Proof. split; reflexivity. Qed.

(** *** Err *)

(** C5.  [NewErr] keeps the code; the message is the description of the
    code when the given message is empty and the given message
    otherwise. *)
Theorem NewErr_fields (c : Code) (m : string) :
  Err.Code (NewErr c m) = c
  /\ (m = "" -> Err.Message (NewErr c m) = Code_String c)
  /\ (m <> "" -> Err.Message (NewErr c m) = m).
Proof.
  unfold NewErr. simpl. split; [reflexivity|].
  destruct (String.eqb_spec m ""); split; congruence.
Qed.

Lemma NewErr_fields_witness :
  Err.Code (NewErr Internal "custom") = Internal
  /\ Err.Message (NewErr Internal "custom") = "custom"
  /\ Err.Message (NewErr Internal "") = Code_String Internal.
Proof.
  split; [apply (NewErr_fields Internal "custom")|].
  split.
  - apply (NewErr_fields Internal "custom"). discriminate.
  - apply (NewErr_fields Internal ""). reflexivity.
Defined.

(** C6.  Rendering an [Err] gives the decimal numeral of its code, a
    colon and a space, and the description of the code; two [Err]s with
    the same code render alike, whatever their messages. *)
Theorem Err_Error_rendering (e : Err.t) :
  Err.Error e = fmt.d_uint (Err.Code e) +:+ ": " +:+ Code_String (Err.Code e)
  /\ DecimalString.NilZero.uint_of_string (fmt.d_uint (Err.Code e))
     = Some (N.to_uint (Err.Code e))
  /\ forall m : string,
       Err.Error {| Err.Message := m; Err.Code := Err.Code e |} = Err.Error e.
Proof.
  split; [reflexivity|]. split; [|reflexivity].
  unfold fmt.d_uint. apply DecimalString.NilZero.usu.
  destruct (Err.Code e); [discriminate|].
  simpl. apply DecimalPos.Unsigned.to_uint_nonnil.
Qed.

Example Err_Error_custom :
  Err.Error (NewErr Unauthenticated "custom") = "2: Unauthenticated request".
Proof. reflexivity. Qed.

(** *** The sanitiser *)

Lemma token_values_redact (u : URL) :
  0 < String.length (Get (Query u) "token") ->
  token_values (redact u) = ["REDACTED"].
Proof.
  intros H. unfold token_values. rewrite (Query_redact u H).
  unfold Set_, index. by rewrite lookup_insert_eq.
Qed.

(** C1.  The sanitiser, which by its comment redacts the token parameter
    from the URL that may be shown to the user, tests only the first
    [token] value: for [?token=&token=SECRET] it redacts nothing, the
    later [token] value stays in the query, and the text printed for the
    URL shows it. *)
Lemma sanitizeURL_keeps_later_token :
  let u := https_url "token=&token=SECRET" in
  let h : heap := {[0 := u]} in
  sanitized (Some 0) h = Some u
  /\ ~ tokens_redacted u
  /\ v_URL (sanitizeURL (Some 0) h).1 (sanitizeURL (Some 0) h).2
     = "https://api.example.com/x?token=&token=SECRET".
Proof.
  split; [by vm_compute|]. split; [|by vm_compute].
  intros H. specialize (H "SECRET").
  assert (Hv : token_values (https_url "token=&token=SECRET")
               = [""; "SECRET"]) by (by vm_compute).
  rewrite Hv in H. discriminate H. set_solver.
Qed.

(** An empty [token] value is kept as it is: the guard of the sanitiser
    asks for a first value that is not empty. *)
Example sanitizeURL_keeps_empty_token :
  sanitized (Some 0) {[0 := https_url "token=&a=1"]}
  = Some (https_url "token=&a=1")
  /\ token_values (https_url "token=&a=1") = [""].
Proof. split; by vm_compute. Qed.

(** A redacted URL can still contain the text of the token it had: here
    the token is a prefix of [REDACTED]. *)
Example sanitizeURL_token_text_remains :
  let h : heap := {[0 := https_url "token=RED"]} in
  v_URL (sanitizeURL (Some 0) h).1 (sanitizeURL (Some 0) h).2
  = "https://api.example.com/x?token=" +:+ "RED" +:+ "ACTED".
Proof. by vm_compute. Qed.

(** The keys are written in sorted order. *)
Example sanitizeURL_sorts_keys :
  sanitized (Some 0) {[0 := https_url "token=SECRET123&a=1"]}
  = Some (https_url "a=1&token=REDACTED").
Proof. by vm_compute. Qed.

(** C4, as stated, fails: the sanitiser assigns to the [RawQuery] of the
    URL it was given, so the caller's URL differs after the call. *)
Lemma sanitizeURL_mutates_argument :
  let h : heap := {[0 := https_url "token=ABC"]} in
  (sanitizeURL (Some 0) h).1 = Some 0
  /\ (sanitizeURL (Some 0) h).2 !! 0 = Some (https_url "token=REDACTED")
  /\ (sanitizeURL (Some 0) h).2 !! 0 <> h !! 0.
Proof. split; [|split]; by vm_compute. Qed.

(** C4, amended.  The sanitiser returns the pointer it was given; of the
    memory it changes at most the [RawQuery] of the URL behind that
    pointer, and nothing at all when the first [token] value is empty or
    missing. *)
Theorem sanitizeURL_frame (h : heap) (p : loc) (u : URL) :
  h !! p = Some u ->
  (sanitizeURL (Some p) h).1 = Some p
  /\ (forall q, q <> p -> (sanitizeURL (Some p) h).2 !! q = h !! q)
  /\ (exists query,
        (sanitizeURL (Some p) h).2 !! p = Some (set_RawQuery query u))
  /\ (Get (Query u) "token" = "" -> (sanitizeURL (Some p) h).2 = h).
Proof.
  intros Hp. rewrite (sanitizeURL_redact h p u Hp). simpl.
  split; [reflexivity|]. split; [|split].
  - intros q Hq. by rewrite lookup_insert_ne.
  - rewrite lookup_insert_eq. unfold redact.
    destruct (Nat.ltb 0 _); eexists; [reflexivity|].
    by rewrite set_RawQuery_same.
  - intros HG. rewrite (redact_unchanged u HG). by apply insert_id.
Qed.

Lemma sanitizeURL_frame_witness :
  let u := https_url "token=ABC" in
  let h : heap := {[0 := u; 1 := https_url "token=DEF"]} in
  (sanitizeURL (Some 0) h).1 = Some 0
  /\ (forall q, q <> 0 -> (sanitizeURL (Some 0) h).2 !! q = h !! q)
  /\ (exists query,
        (sanitizeURL (Some 0) h).2 !! 0 = Some (set_RawQuery query u))
  /\ (Get (Query u) "token" = "" -> (sanitizeURL (Some 0) h).2 = h).
Proof.
  intros u h. apply (sanitizeURL_frame h 0 u). reflexivity.
Defined.

(** C7.  Sanitising the result of the sanitiser, in the memory that the
    first call left, changes nothing more. *)
Theorem sanitizeURL_idempotent (uri : option loc) (h : heap) :
  sanitizeURL (sanitizeURL uri h).1 (sanitizeURL uri h).2
  = sanitizeURL uri h.
Proof.
  destruct uri as [p|]; [|reflexivity].
  destruct (h !! p) as [u|] eqn:Hp.
  - rewrite (sanitizeURL_redact h p u Hp). cbn [fst snd].
    rewrite (sanitizeURL_redact _ p (redact u)) by apply lookup_insert_eq.
    by rewrite redact_redact, insert_insert_eq.
  - unfold sanitizeURL. rewrite Hp. simpl. by rewrite Hp.
Qed.

(** C8.  When the first [token] value is not empty, the query of the
    sanitised URL has one [token] parameter, with the value [REDACTED],
    however many the input had. *)
Theorem sanitizeURL_single_token (h : heap) (p : loc) (u : URL)
    (v : string) (vs : list string) :
  h !! p = Some u ->
  Query u !! "token" = Some (v :: vs) ->
  v <> "" ->
  exists u',
    sanitized (Some p) h = Some u'
    /\ Query u' !! "token" = Some ["REDACTED"]
    /\ RawQuery u' = Encode (<["token" := ["REDACTED"]]> (Query u)).
Proof.
  intros Hp Htok Hv. exists (redact u).
  split; [by apply sanitized_redact|].
  assert (Hlen : 0 < String.length (Get (Query u) "token")).
  { unfold Get, index. rewrite Htok. simpl. destruct v; simpl; [done|lia]. }
  split.
  - rewrite (Query_redact u Hlen). apply lookup_insert_eq.
  - unfold redact. apply Nat.ltb_lt in Hlen. by rewrite Hlen.
Qed.

Lemma sanitizeURL_single_token_witness :
  exists u',
    sanitized (Some 0) {[0 := https_url "token=A&b=1&token=B"]} = Some u'
    /\ Query u' !! "token" = Some ["REDACTED"]
    /\ RawQuery u'
       = Encode (<["token" := ["REDACTED"]]>
                   (Query (https_url "token=A&b=1&token=B"))).
Proof.
  apply (sanitizeURL_single_token _ 0 (https_url "token=A&b=1&token=B")
           "A" ["B"]).
  - reflexivity.
  - by vm_compute.
  - discriminate.
Defined.

Example sanitizeURL_two_tokens :
  sanitized (Some 0) {[0 := https_url "token=A&b=1&token=B"]}
  = Some (https_url "b=1&token=REDACTED").
Proof. by vm_compute. Qed.

(** C9.  When the query has a [token] parameter and the first [token]
    value is empty, the sanitiser returns its argument and writes
    nothing: the URL, raw query included, is as it was. *)
Theorem sanitizeURL_empty_first_token (h : heap) (p : loc) (u : URL)
    (vs : list string) :
  h !! p = Some u ->
  Query u !! "token" = Some ("" :: vs) ->
  sanitizeURL (Some p) h = (Some p, h)
  /\ sanitized (Some p) h = Some u.
Proof.
  intros Hp Htok.
  assert (HG : Get (Query u) "token" = "").
  { unfold Get, index. by rewrite Htok. }
  rewrite (sanitized_redact h p u Hp), (sanitizeURL_redact h p u Hp).
  rewrite (redact_unchanged u HG). by rewrite insert_id.
Qed.

Lemma sanitizeURL_empty_first_token_witness :
  let u := https_url "token=&token=SECRET" in
  sanitizeURL (Some 0) {[0 := u]} = (Some 0, {[0 := u]})
  /\ sanitized (Some 0) {[0 := u]} = Some u.
Proof.
  intros u. apply (sanitizeURL_empty_first_token _ 0 u ["SECRET"]).
  - reflexivity.
  - by vm_compute.
Defined.

(** C10.  The values of every parameter whose key is not exactly
    [token] are the same in the sanitised URL. *)
Theorem sanitizeURL_other_keys (h : heap) (p : loc) (u : URL) (k : string) :
  h !! p = Some u ->
  k <> "token" ->
  exists u',
    sanitized (Some p) h = Some u' /\ Query u' !! k = Query u !! k.
Proof.
  intros Hp Hk. exists (redact u). split; [by apply sanitized_redact|].
  destruct (Nat.ltb 0 (String.length (Get (Query u) "token"))) eqn:Hlen.
  - rewrite (Query_redact u (proj1 (Nat.ltb_lt _ _) Hlen)).
    unfold Set_. by rewrite lookup_insert_ne.
  - unfold redact. by rewrite Hlen.
Qed.

Lemma sanitizeURL_other_keys_witness :
  exists u',
    sanitized (Some 0) {[0 := https_url "Token=A&token=B&access_token=C"]}
    = Some u'
    /\ Query u' !! "Token"
       = Query (https_url "Token=A&token=B&access_token=C") !! "Token".
Proof.
  apply (sanitizeURL_other_keys _ 0
           (https_url "Token=A&token=B&access_token=C") "Token").
  - reflexivity.
  - discriminate.
Defined.

Example sanitizeURL_case_sensitive :
  sanitized (Some 0) {[0 := https_url "Token=A&token=B&access_token=C"]}
  = Some (https_url "Token=A&access_token=C&token=REDACTED")
  /\ sanitized (Some 0) {[0 := https_url "Token=A&access_token=C"]}
     = Some (https_url "Token=A&access_token=C").
Proof. split; by vm_compute. Qed.

(** *** ErrorResponse *)

(** Whatever the response, the text that [ErrorResponse.Error] returns
    is not the one that the specification describes: it ends in a
    printed func value where the rendering of the [Err] should be. *)
Lemma ErrorResponse_Error_never_specified (self : N)
    (r : ErrorResponse.t) (h h' : heap) (s : string) :
  ErrorResponse.Error self r h = Some (s, h') ->
  specified_rendering r h <> Some s.
Proof.
  unfold ErrorResponse.Error, specified_rendering.
  destruct (ErrorResponse.Response r) as [res|]; [|done]. simpl.
  destruct (http.Response.Request res) as [req|]; [|done]. simpl.
  destruct (ErrorResponse.Err r) as [e|]; [|by destruct (sanitizeURL _ _)].
  simpl. destruct (sanitizeURL _ _) as [uri h''].
  intros [= <- _] [= H].
  repeat apply String.app_inj in H.
  symmetry in H. revert H. unfold Err.Error.
  change (": " +:+ ?x) with (String ":" (" " +:+ x)).
  apply v_func_not_numeral.
Qed.

(** C2.  For the request [GET https://api.example.com/x?token=ABC]
    answered with status 401 and [Err{Code: Unauthenticated}], the
    rendering ends in the printed func value [r.Error] and not in
    [2: Unauthenticated request]. *)
Theorem ErrorResponse_Error_prints_func_value (self : N) :
  let h : heap := {[0 := https_url "token=ABC"]} in
  ErrorResponse.Error self response_401 h
  = Some ("GET https://api.example.com/x?token=REDACTED: 401 "
          +:+ fmt.v_func self,
          {[0 := https_url "token=REDACTED"]})
  /\ specified_rendering response_401 h
     = Some "GET https://api.example.com/x?token=REDACTED: 401 2: Unauthenticated request"
  /\ "GET https://api.example.com/x?token=REDACTED: 401 " +:+ fmt.v_func self
     <> "GET https://api.example.com/x?token=REDACTED: 401 2: Unauthenticated request".
Proof.
  intros h.
  assert (HE : ErrorResponse.Error self response_401 h
    = Some ("GET https://api.example.com/x?token=REDACTED: 401 "
            +:+ fmt.v_func self, {[0 := https_url "token=REDACTED"]})).
  { assert (HS : sanitizeURL (Some 0) h
                 = (Some 0, {[0 := https_url "token=REDACTED"]}))
      by (by vm_compute).
    cbv [ErrorResponse.Error response_401 NewErrorResponse
         ErrorResponse.Response http.Response.Request http.Request.URL
         http.Request.Method http.Response.StatusCode].
    rewrite HS. reflexivity. }
  assert (HS : specified_rendering response_401 h
    = Some "GET https://api.example.com/x?token=REDACTED: 401 2: Unauthenticated request")
    by (by vm_compute).
  split; [exact HE|]. split; [exact HS|].
  intros Heq. apply (ErrorResponse_Error_never_specified _ _ _ _ _ HE).
  by rewrite HS, Heq.
Qed.

(** * Further properties of the package *)

(** ** Code descriptions *)

(** X1.  The description of a failure code identifies it: no other code,
    defined or not, has the same description. *)
Theorem Code_String_identifies_failure (c1 c2 : Code) :
  (InvalidToken <= c1 <= Internal)%N ->
  Code_String c1 = Code_String c2 -> c1 = c2.
Proof.
  unfold InvalidToken, Internal. intros Hc1.
  assert (Hcases : c1 = 1%N \/ c1 = 2%N \/ c1 = 3%N \/ c1 = 4%N \/ c1 = 5%N)
    by lia.
  unfold Code_String, InvalidToken, Unauthenticated, BadAuthenticationData,
    BadInputData, Internal.
  destruct Hcases as [-> | [-> | [-> | [-> | ->]]]]; simpl;
    repeat match goal with
           | |- context [N.eqb c2 ?k] =>
               destruct (N.eqb_spec c2 k) as [->|_]
           end;
    intros H; first [reflexivity | discriminate H].
Qed.

Lemma Code_String_identifies_failure_witness : BadInputData = 4%N.
Proof.
  apply (Code_String_identifies_failure BadInputData 4%N).
  - unfold InvalidToken, BadInputData, Internal. lia.
  - reflexivity.
Defined.

(** X2.  The fallback text is the description of [Success] and of the
    codes above [Internal], and of no other code. *)
Theorem Code_String_fallback_iff (c : Code) :
  Code_String c = "FIXME: this should be a helpful message"
  <-> c = Success \/ (Internal < c)%N.
Proof.
  split.
  - unfold Code_String, InvalidToken, Unauthenticated, BadAuthenticationData,
      BadInputData, Internal, Success.
    repeat match goal with
           | |- context [N.eqb c ?k] =>
               destruct (N.eqb_spec c k) as [->|?]; [discriminate|]
           end.
    intros _. lia.
  - intros [-> | Hc]; [reflexivity | by apply Code_String_fallback].
Qed.

(** ** Err *)

(** X3.  An [Err] made by [NewErr] never has an empty message. *)
Theorem NewErr_Message_nonempty (c : Code) (m : string) :
  Err.Message (NewErr c m) <> "".
Proof.
  unfold NewErr. simpl. destruct (String.eqb_spec m ""); [|done].
  apply Code_String_nonempty.
Qed.

(** X4.  Making an [Err] again from the code and the message of one that
    [NewErr] made gives the same [Err]: the default message, once filled
    in, is kept. *)
Theorem NewErr_again (c : Code) (m : string) :
  NewErr (Err.Code (NewErr c m)) (Err.Message (NewErr c m)) = NewErr c m.
Proof.
  pose proof (NewErr_Message_nonempty c m) as Hne.
  unfold NewErr in *. simpl in *.
  destruct (String.eqb_spec (if String.eqb m "" then Code_String c else m) "");
    [contradiction | reflexivity].
Qed.

Lemma d_uint_all_digits (n : N) : all_digits (fmt.d_uint n) = true.
Proof.
  destruct (d_uint_shape n) as (c & rest & -> & Hc & Hr).
  simpl. by rewrite Hc, Hr.
Qed.

Lemma digits_before_colon (a b x y : string) :
  all_digits a = true -> all_digits b = true ->
  a +:+ String ":" x = b +:+ String ":" y -> a = b.
Proof.
  revert b. induction a as [|c a IH]; intros [|d b] Ha Hb;
    rewrite ?append_cons, ?append_nil_l; simpl in *.
  - done.
  - intros [= <- _]. discriminate Hb.
  - intros [= -> _]. discriminate Ha.
  - apply andb_prop in Ha as [_ Ha]. apply andb_prop in Hb as [_ Hb].
    intros [= -> H]. f_equal. by apply IH.
Qed.

Lemma d_uint_inj (n1 n2 : N) : fmt.d_uint n1 = fmt.d_uint n2 -> n1 = n2.
Proof.
  intros H. apply DecimalN.Unsigned.to_uint_inj.
  assert (Hnil : forall n, N.to_uint n <> Decimal.Nil).
  { intros [|p]; [discriminate|]. apply DecimalPos.Unsigned.to_uint_nonnil. }
  apply (f_equal DecimalString.NilZero.uint_of_string) in H.
  unfold fmt.d_uint in H.
  rewrite !DecimalString.NilZero.usu in H by apply Hnil.
  by injection H.
Qed.

(** X5.  The rendering of an [Err] determines its code: two [Err]s that
    render to the same text have the same code. *)
Theorem Err_Error_determines_code (e1 e2 : Err.t) :
  Err.Error e1 = Err.Error e2 -> Err.Code e1 = Err.Code e2.
Proof.
  unfold Err.Error.
  change (": " +:+ ?x) with (String ":" (" " +:+ x)).
  intros H. apply d_uint_inj.
  eapply digits_before_colon; [apply d_uint_all_digits.. | exact H].
Qed.

Lemma Err_Error_determines_code_witness :
  Err.Code (NewErr Internal "disk full") = Err.Code (NewErr Internal "").
Proof.
  apply (Err_Error_determines_code (NewErr Internal "disk full")
           (NewErr Internal "")).
  reflexivity.
Defined.

(** ** The sanitiser *)

Lemma sanitizeURL_heap (p : loc) (h : heap) :
  sanitizeURL (Some p) h
  = (Some p, match h !! p with
             | Some u => <[p := redact u]> h
             | None => h
             end).
Proof.
  destruct (h !! p) as [u|] eqn:Hp; [by apply sanitizeURL_redact|].
  unfold sanitizeURL. by rewrite Hp.
Qed.

Lemma sanitizeURL_again (uri : option loc) (h : heap) :
  sanitizeURL uri (sanitizeURL uri h).2 = sanitizeURL uri h.
Proof.
  destruct uri as [p|]; [|reflexivity].
  rewrite (sanitizeURL_heap p h). cbn [snd]. rewrite sanitizeURL_heap.
  destruct (h !! p) as [u|] eqn:Hp.
  - by rewrite lookup_insert_eq, redact_redact, insert_insert_eq.
  - by rewrite Hp.
Qed.

Lemma has_token_redact (u : URL) :
  has_token u ->
  redact u = set_RawQuery (Encode (<["token" := ["REDACTED"]]> (Query u))) u.
Proof. intros H%Nat.ltb_lt. unfold redact. by rewrite H. Qed.

(** X6.  A URL whose query has no [token] parameter is returned as it is,
    and nothing is written to memory. *)
Theorem sanitizeURL_no_token (h : heap) (p : loc) (u : URL) :
  h !! p = Some u ->
  Query u !! "token" = None ->
  sanitizeURL (Some p) h = (Some p, h).
Proof.
  intros Hp Htok. rewrite (sanitizeURL_redact h p u Hp).
  rewrite redact_unchanged; [by rewrite insert_id|].
  unfold Get, index. by rewrite Htok.
Qed.

Lemma sanitizeURL_no_token_witness :
  sanitizeURL (Some 0) {[0 := https_url "a=1&Token=x;token=y"]}
  = (Some 0, {[0 := https_url "a=1&Token=x;token=y"]}).
Proof.
  apply (sanitizeURL_no_token _ 0 (https_url "a=1&Token=x;token=y")).
  - reflexivity.
  - by vm_compute.
Defined.



(** X8.  After a redaction the raw query is in the form that [Encode]
    writes: encoding its parameters again gives the same text. *)
Theorem sanitizeURL_raw_query_encoded (h : heap) (p : loc) (u : URL) :
  h !! p = Some u ->
  has_token u ->
  exists u',
    sanitized (Some p) h = Some u' /\ Encode (Query u') = RawQuery u'.
Proof.
  intros Hp Htok. exists (redact u). split; [by apply sanitized_redact|].
  rewrite (Query_redact u Htok). by rewrite (has_token_redact u Htok).
Qed.

Lemma sanitizeURL_raw_query_encoded_witness :
  exists u',
    sanitized (Some 0) {[0 := https_url "z=%7e&token=T&a=x+y"]} = Some u'
    /\ Encode (Query u') = RawQuery u'.
Proof.
  apply (sanitizeURL_raw_query_encoded _ 0 (https_url "z=%7e&token=T&a=x+y")).
  - reflexivity.
  - unfold has_token. vm_compute. lia.
Defined.

(** X9.  Sanitising two URLs one after the other leaves the same memory
    in either order. *)
Theorem sanitizeURL_commute (uri1 uri2 : option loc) (h : heap) :
  (sanitizeURL uri2 (sanitizeURL uri1 h).2).2
  = (sanitizeURL uri1 (sanitizeURL uri2 h).2).2.
Proof.
  destruct uri1 as [p|], uri2 as [q|]; try reflexivity.
  destruct (decide (p = q)) as [->|Hne]; [reflexivity|].
  rewrite !sanitizeURL_heap. cbn [snd].
  destruct (h !! p) as [up|] eqn:Hp, (h !! q) as [uq|] eqn:Hq;
    rewrite ?lookup_insert_ne, ?Hp, ?Hq by done; try reflexivity.
  by apply insert_insert_ne.
Qed.

Lemma redact_same_except_token (u1 u2 : URL) :
  same_except_token u1 u2 -> has_token u1 -> has_token u2 ->
  redact u1 = redact u2.
Proof.
  intros [Hfields Hquery] Ht1 Ht2.
  rewrite (has_token_redact u1 Ht1), (has_token_redact u2 Ht2).
  rewrite <- (insert_delete_eq (Query u1)), <- (insert_delete_eq (Query u2)).
  rewrite Hquery.
  change (set_RawQuery ?q u1) with (set_RawQuery q (set_RawQuery "" u1)).
  by rewrite Hfields.
Qed.

(** X10.  The sanitised URL does not depend on the [token] values of the
    input: two URLs that differ only in their [token] parameters, each
    with a first [token] value that is not empty, are sanitised to the
    same URL. *)
Theorem sanitizeURL_hides_token (h1 h2 : heap) (p : loc) (u1 u2 : URL) :
  h1 !! p = Some u1 ->
  h2 !! p = Some u2 ->
  same_except_token u1 u2 ->
  has_token u1 ->
  has_token u2 ->
  sanitized (Some p) h1 = sanitized (Some p) h2.
Proof.
  intros Hp1 Hp2 Hsame Ht1 Ht2.
  rewrite (sanitized_redact h1 p u1 Hp1), (sanitized_redact h2 p u2 Hp2).
  by rewrite (redact_same_except_token u1 u2).
Qed.

Lemma sanitizeURL_hides_token_witness :
  sanitized (Some 0) {[0 := https_url "a=1&token=ALICE"]}
  = sanitized (Some 0) {[0 := https_url "token=BOB&a=1&token=CAROL"]}.
Proof.
  apply (sanitizeURL_hides_token _ _ 0 (https_url "a=1&token=ALICE")
           (https_url "token=BOB&a=1&token=CAROL")).
  - reflexivity.
  - reflexivity.
  - split; by vm_compute.
  - unfold has_token. vm_compute. lia.
  - unfold has_token. vm_compute. lia.
Defined.

(** ** ErrorResponse *)

Lemma sanitizeURL_fst (uri : option loc) (h : heap) :
  (sanitizeURL uri h).1 = uri.
Proof. destruct uri as [p|]; [by rewrite sanitizeURL_heap | reflexivity]. Qed.

(** X11.  Rendering an [ErrorResponse] panics when its response or the
    request of its response is nil, and in no other case: a nil URL and a
    nil [Err] are rendered. *)
Theorem ErrorResponse_Error_panics_iff (self : N) (r : ErrorResponse.t)
    (h : heap) :
  ErrorResponse.Error self r h = None
  <-> ErrorResponse.Response r = None
      \/ exists res, ErrorResponse.Response r = Some res
                     /\ http.Response.Request res = None.
Proof.
  unfold ErrorResponse.Error.
  destruct (ErrorResponse.Response r) as [res|]; [|by split; [left|]].
  destruct (http.Response.Request res) as [req|] eqn:Hreq.
  - destruct (sanitizeURL _ _). split; [done|].
    intros [? | (res' & [= <-] & ?)]; congruence.
  - split; [|done]. intros _. right. by exists res.
Qed.

(** X12.  Rendering is stable: a second rendering, in the memory that the
    first one left, returns the same text and writes nothing more. *)
Theorem ErrorResponse_Error_again (self : N) (r : ErrorResponse.t)
    (h h' : heap) (s : string) :
  ErrorResponse.Error self r h = Some (s, h') ->
  ErrorResponse.Error self r h' = Some (s, h').
Proof.
  unfold ErrorResponse.Error.
  destruct (ErrorResponse.Response r) as [res|]; [|done].
  destruct (http.Response.Request res) as [req|]; [|done].
  pose proof (sanitizeURL_again (http.Request.URL req) h) as Hagain.
  pose proof (sanitizeURL_fst (http.Request.URL req) h) as Hfst.
  destruct (sanitizeURL (http.Request.URL req) h) as [uri h1].
  simpl in Hagain, Hfst. subst uri. intros [= <- <-].
  by rewrite Hagain.
Qed.

Lemma ErrorResponse_Error_again_witness :
  ErrorResponse.Error 4198400 response_401 {[0 := https_url "token=REDACTED"]}
  = Some ("GET https://api.example.com/x?token=REDACTED: 401 0x401000",
          {[0 := https_url "token=REDACTED"]}).
Proof.
  apply (ErrorResponse_Error_again 4198400 response_401
           {[0 := https_url "token=ABC"]}).
  by vm_compute.
Defined.

(** X13.  Rendering has an effect on memory.  When the first [token]
    value of the request URL is not empty, the call overwrites the
    [RawQuery] of that URL with the encoding of its parameters with
    [token] set to the one value [REDACTED], which is the memory that
    [sanitizeURL] leaves, changes nothing else, and prints the rewritten
    URL in the text it returns. *)
Theorem ErrorResponse_Error_redacts_request (self : N) (r : ErrorResponse.t)
    (res : http.Response.t) (req : http.Request.t) (p : loc) (u : URL)
    (h : heap) :
  ErrorResponse.Response r = Some res ->
  http.Response.Request res = Some req ->
  http.Request.URL req = Some p ->
  h !! p = Some u ->
  has_token u ->
  let u' :=
    set_RawQuery (Encode (<["token" := ["REDACTED"]]> (Query u))) u in
  ErrorResponse.Error self r h
  = Some (http.Request.Method req +:+ " " +:+ URL_String u' +:+ ": "
          +:+ fmt.d_int (http.Response.StatusCode res) +:+ " "
          +:+ fmt.v_func self,
          <[p := u']> h)
  /\ <[p := u']> h = (sanitizeURL (Some p) h).2
  /\ token_values u' = ["REDACTED"].
Proof.
  intros Hres Hreq Hurl Hp Htok u'.
  assert (Hu' : redact u = u') by apply (has_token_redact u Htok).
  split; [|split].
  - unfold ErrorResponse.Error.
    rewrite Hres, Hreq, Hurl, (sanitizeURL_redact h p u Hp), Hu'.
    unfold v_URL. simpl. by rewrite lookup_insert_eq.
  - by rewrite (sanitizeURL_redact h p u Hp), Hu'.
  - rewrite <- Hu'. by apply token_values_redact.
Qed.

Lemma ErrorResponse_Error_redacts_request_witness :
  let u' :=
    set_RawQuery
      (Encode (<["token" := ["REDACTED"]]> (Query (https_url "token=ABC&a=1"))))
      (https_url "token=ABC&a=1") in
  let h : heap := {[0 := https_url "token=ABC&a=1"; 1 := https_url "token=DEF"]} in
  ErrorResponse.Error 0 response_401 h
  = Some ("GET" +:+ " " +:+ URL_String u' +:+ ": " +:+ fmt.d_int 401 +:+ " "
          +:+ fmt.v_func 0,
          <[0 := u']> h)
  /\ <[0 := u']> h = (sanitizeURL (Some 0) h).2
  /\ token_values u' = ["REDACTED"].
Proof.
  intros u' h.
  apply (ErrorResponse_Error_redacts_request 0 response_401
           {| http.Response.StatusCode := 401;
              http.Response.Request :=
                Some {| http.Request.Method := "GET";
                        http.Request.URL := Some 0 |} |}
           {| http.Request.Method := "GET"; http.Request.URL := Some 0 |}
           0 (https_url "token=ABC&a=1") h).
  - reflexivity.
  - reflexivity.
  - reflexivity.
  - reflexivity.
  - unfold has_token. vm_compute. lia.
Defined.

(** X14.  The rendered text does not depend on the [token] values of the
    request: for two URLs that differ only in their [token] parameters,
    each with a first [token] value that is not empty, the renderings
    are the same text. *)
Theorem ErrorResponse_Error_hides_token (self : N) (r : ErrorResponse.t)
    (res : http.Response.t) (req : http.Request.t) (p : loc) (u1 u2 : URL)
    (h1 h2 : heap) :
  ErrorResponse.Response r = Some res ->
  http.Response.Request res = Some req ->
  http.Request.URL req = Some p ->
  h1 !! p = Some u1 ->
  h2 !! p = Some u2 ->
  same_except_token u1 u2 ->
  has_token u1 ->
  has_token u2 ->
  exists s h1' h2',
    ErrorResponse.Error self r h1 = Some (s, h1')
    /\ ErrorResponse.Error self r h2 = Some (s, h2').
Proof.
  intros Hres Hreq Hurl Hp1 Hp2 Hsame Ht1 Ht2. unfold ErrorResponse.Error.
  rewrite Hres, Hreq, Hurl.
  rewrite (sanitizeURL_redact h1 p u1 Hp1), (sanitizeURL_redact h2 p u2 Hp2).
  unfold v_URL. simpl. rewrite !lookup_insert_eq.
  rewrite (redact_same_except_token u1 u2 Hsame Ht1 Ht2).
  by do 3 eexists.
Qed.

Lemma ErrorResponse_Error_hides_token_witness :
  exists s h1' h2',
    ErrorResponse.Error 0 response_401 {[0 := https_url "token=ALICE"]}
    = Some (s, h1')
    /\ ErrorResponse.Error 0 response_401 {[0 := https_url "token=BOB"]}
       = Some (s, h2').
Proof.
  eapply (ErrorResponse_Error_hides_token 0 response_401 _ _ 0
            (https_url "token=ALICE") (https_url "token=BOB")).
  - reflexivity.
  - reflexivity.
  - reflexivity.
  - reflexivity.
  - reflexivity.
  - split; by vm_compute.
  - unfold has_token. vm_compute. lia.
  - unfold has_token. vm_compute. lia.
Defined.
